(** * crypt/file.py: editing a GPG-encrypted file through a plaintext copy in /dev/shm

    A shallow embedding of [src/crypt/file.py].

    - Part 1 embeds the string computations of [decrypt_to_tmp]
      ([str.rstrip], [os.path.basename], [os.path.join], [str.splitlines],
      [str.split], [str.startswith], the key-id scan) and the exception
      wrapping of [encrypt_back] as executable functions.
    - Part 2 embeds the session ([main], [cleanup_and_exit],
      [ChangeHandler.on_modified], [encrypt_back] under [_ENCRYPT_LOCK]) as an
      executable step function over an explicit state: the module globals,
      the lock, the main thread's stack of activations (a signal handler runs
      on top of whatever the main thread was doing), the watcher thread, the
      child process and the workspace on disk.

    Characters are code points below 256 ([ascii]). *)

From Stdlib Require Import List String Ascii ZArith Bool Arith Lia.
From Stdlib Require Import DecimalString.
Import ListNotations.
Local Open Scope string_scope.
Local Open Scope Z_scope.

(** ** Exceptions and results *)

(** The exception classes the program distinguishes.  [OtherError] stands for
    any other subclass of [Exception] a library call may raise ([OSError],
    [TypeError], ...). *)
Inductive exn : Type :=
| RuntimeError (msg : string)
| IndexError (msg : string)
| OtherError (msg : string).

(** [str(e)], as used by the f-strings [f"...{e}"]. *)
Definition exn_str (e : exn) : string :=
  match e with
  | RuntimeError m | IndexError m | OtherError m => m
  end.

Inductive result (A : Type) : Type :=
| Ok (a : A)
| Raise (e : exn).
Arguments Ok {A} a.
Arguments Raise {A} e.

(** [str(n)] for a Python [int]. *)
Definition str_of_int (z : Z) : string := NilZero.string_of_int (Z.to_int z).

(** ** Part 1: strings *)

Module Py.

Definition nl : ascii := ascii_of_nat 10.

Fixpoint mem (c : ascii) (chars : string) : bool :=
  match chars with
  | EmptyString => false
  | String d rest => Ascii.eqb c d || mem c rest
  end.

Fixpoint rev_onto (s acc : string) : string :=
  match s with
  | EmptyString => acc
  | String c rest => rev_onto rest (String c acc)
  end.

Definition rev (s : string) : string := rev_onto s EmptyString.

(** Drop the leading characters that belong to [chars]. *)
Fixpoint lstrip (chars s : string) : string :=
  match s with
  | EmptyString => EmptyString
  | String c rest => if mem c chars then lstrip chars rest else s
  end.

(** [s.rstrip(chars)]: [chars] is a SET of characters; every trailing
    character of [s] that belongs to it is removed.  Written directly:
    a character is kept when something that is kept follows it, or when it
    is not in the set. *)
Fixpoint rstrip (chars s : string) : string :=
  match s with
  | EmptyString => EmptyString
  | String c rest =>
      match rstrip chars rest with
      | EmptyString => if mem c chars then EmptyString else String c EmptyString
      | kept => String c kept
      end
  end.

(** [s.removesuffix(suffix)] (what removing one ".gpg" suffix would be). *)
Definition removesuffix (suffix s : string) : string :=
  let n := (String.length s - String.length suffix)%nat in
  if (String.length suffix <=? String.length s)%nat
     && String.eqb (substring n (String.length suffix) s) suffix
  then substring 0 n s else s.

(** [s.startswith(p)] *)
Definition startswith (p s : string) : bool := String.prefix p s.

(** [s.endswith(p)] *)
Definition endswith (p s : string) : bool :=
  (String.length p <=? String.length s)%nat
  && String.eqb
       (substring (String.length s - String.length p) (String.length p) s) p.

(** [c.isspace()] on code points below 256: TAB, LF, VT, FF, CR, the four
    separators 0x1c-0x1f, space, NEL (0x85) and NBSP (0xa0). *)
Definition isspace (c : ascii) : bool :=
  let n := nat_of_ascii c in
  ((9 <=? n) && (n <=? 13) || (28 <=? n) && (n <=? 31)
   || (n =? 32) || (n =? 133) || (n =? 160))%nat.

(** Line boundaries of [str.splitlines] below 256: LF, VT, FF, CR (and CR LF
    as one), 0x1c, 0x1d, 0x1e and NEL. *)
Definition islinebreak (c : ascii) : bool :=
  let n := nat_of_ascii c in
  ((10 <=? n) && (n <=? 13) || (28 <=? n) && (n <=? 30) || (n =? 133))%nat.

(** [s.split()]: maximal runs of non-whitespace.  [acc] is the current
    token, reversed. *)
Fixpoint split_from (acc s : string) : list string :=
  match s with
  | EmptyString =>
      match acc with EmptyString => [] | _ => [rev acc] end
  | String c rest =>
      if isspace c then
        match acc with
        | EmptyString => split_from EmptyString rest
        | _ => rev acc :: split_from EmptyString rest
        end
      else split_from (String c acc) rest
  end.

Definition split (s : string) : list string := split_from EmptyString s.

(** [s.splitlines()].  [acc] is the current line, reversed; [cr] tells that
    the previous character was a CR that already closed a line, so that an
    LF right after it belongs to the same boundary.  A final line without
    terminator is kept unless it is empty. *)
Fixpoint splitlines_from (cr : bool) (acc s : string) : list string :=
  match s with
  | EmptyString =>
      match acc with EmptyString => [] | _ => [rev acc] end
  | String c rest =>
      if cr && Ascii.eqb c nl then splitlines_from false acc rest
      else if islinebreak c then
        rev acc :: splitlines_from (Ascii.eqb c (ascii_of_nat 13)) EmptyString rest
      else splitlines_from false (String c acc) rest
  end.

Definition splitlines (s : string) : list string :=
  splitlines_from false EmptyString s.

(** [os.path.basename(p)]: what follows the last slash. *)
Fixpoint basename (p : string) : string :=
  match p with
  | EmptyString => EmptyString
  | String c rest =>
      if mem "/"%char rest then basename rest
      else if Ascii.eqb c "/"%char then rest else p
  end.

(** [os.path.join(a, b)] for two components (posixpath). *)
Definition join (a b : string) : string :=
  if startswith "/" b then b
  else if String.eqb a "" || endswith "/" a then a ++ b
  else a ++ "/" ++ b.

End Py.

(** ** Part 1: the crypto gateway *)

(** What a finished backend process reports ([proc.returncode] and the captured
    [stderr]). *)
Record completed : Type := Completed { returncode : Z; stderr : string }.

(** Lines 59-65 of [decrypt_to_tmp]: the scan for the key id.  The result is
    the value of [keyid] after the loop ([None] when it was never assigned),
    or the [IndexError] of the subscript [parts[2]]. *)
Fixpoint scan_keyid (lines : list string) : result (option string) :=
  match lines with
  | [] => Ok None
  | line :: rest =>
      if Py.startswith "[GNUPG:] ENC_TO" line then
        let parts := Py.split line in
        if (2 <=? List.length parts)%nat then
          match nth_error parts 2 with
          | Some k => Ok (Some k)                      (* keyid = parts[2]; break *)
          | None => Raise (IndexError "list index out of range")
          end
        else scan_keyid rest
      else scan_keyid rest
  end.

(** [not keyid]: [None] and the empty string are falsy. *)
Definition falsy (k : option string) : bool :=
  match k with
  | None => true
  | Some s => String.eqb s ""
  end.

Definition no_recipient_msg : string :=
  "Could not determine recipient key ID from GPG status output.".

Definition decrypt_failed_msg (p : completed) : string :=
  "GPG decryption failed: " ++ str_of_int (returncode p)
    ++ String Py.nl (stderr p).

(** The name of the plaintext file, line 44. *)
Definition plaintext_name (enc_path : string) : string :=
  Py.rstrip ".gpg" (Py.basename enc_path).

(** [decrypt_to_tmp(enc_path)].  [tmpdir] is what [tempfile.mkdtemp] returned
    and [p] what the gpg process reported; the result is
    [(tmpdir, tmpfile, keyid)] or the exception raised. *)
Definition decrypt_to_tmp (tmpdir enc_path : string) (p : completed)
  : result (string * string * string) :=
  let tmpfile := Py.join tmpdir (plaintext_name enc_path) in
  if negb (returncode p =? 0) then
    Raise (RuntimeError (decrypt_failed_msg p))
  else
    match scan_keyid (Py.splitlines (stderr p)) with
    | Raise e => Raise e
    | Ok keyid =>
        if falsy keyid then Raise (RuntimeError no_recipient_msg)
        else
          match keyid with
          | Some k => Ok (tmpdir, tmpfile, k)
          | None => Raise (RuntimeError no_recipient_msg)
          end
    end.

(** What [subprocess.run] did in [encrypt_back]: it returned a finished
    process, or raised. *)
Inductive run_outcome : Type :=
| Ran (p : completed)
| RunRaised (e : exn).

(** Lines 84-89 of [encrypt_back]: the [try] block.  A nonzero return code
    raises inside the [try], so that message is wrapped a second time by the
    [except Exception] clause, like any exception of [subprocess.run]. *)
Definition encrypt_try (o : run_outcome) : result unit :=
  let body :=
    match o with
    | Ran p =>
        if negb (returncode p =? 0) then
          Raise (RuntimeError ("GPG encryption failed with status code "
                                 ++ str_of_int (returncode p) ++ ":"
                                 ++ String Py.nl (stderr p)))
        else Ok tt
    | RunRaised e => Raise e
    end in
  match body with
  | Ok u => Ok u
  | Raise e => Raise (RuntimeError ("GPG encryption failed: " ++ exn_str e))
  end.


(** ** Part 2: the session

    Granularity.  One step of a thread is one source statement (for
    [encrypt_back]: entering the [with] block, the backend invocation, leaving
    the block).  A blocking call ([Lock.acquire], [Popen.wait], [input],
    [Thread.join]) is a step that is enabled only when it can return.  A signal
    can be delivered before any step.  Python runs a signal handler on the main
    thread, on top of whatever that thread was doing: the handler is a new
    activation of [cleanup_and_exit] pushed on [cleanups], and only the newest
    activation runs.  [sys.exit] raises [SystemExit], which no [except] clause
    of the file catches: the process ends.

    Environment.  Calls the source guards with [try] may return or raise, as
    the step's [env] argument says.  The calls it leaves unguarded ([input],
    [Observer.stop], [Thread.join], [shutil.rmtree], [signal.signal]) return
    normally, and lines 155-158, which create, schedule and start the observer,
    are one step.  After [stop()] the observer thread may still deliver events
    that were queued; it then ends, and [join()] returns once it has ended.
    [args.encrypted] is taken as an absolute path ([os.path.abspath] changes
    nothing), and the text of the child's command plays no role. *)

Inductive signal : Type := SIGINT | SIGTERM.

(** How far an activation of [encrypt_back] is. *)
Inductive enc_pc : Type :=
| E_acquire                  (* line 75: waiting to enter [with _ENCRYPT_LOCK] *)
| E_run                      (* lines 76-85: lock held, gpg running *)
| E_exit (r : result unit).  (* lines 86-89 done: lock held, leaving with [r] *)

(** How far an activation of [cleanup_and_exit] is. *)
Inductive cleanup_pc : Type :=
| K_child                    (* lines 108-113 *)
| K_call                     (* line 117, before the call *)
| K_enc (e : enc_pc)         (* line 117, inside [encrypt_back] *)
| K_report (e : exn)         (* lines 121-123 *)
| K_input                    (* line 124 *)
| K_stop                     (* lines 127-128 *)
| K_join                     (* line 129 *)
| K_rmtree                   (* lines 130-131 *)
| K_exit                     (* line 132 *)
| K_exited.                  (* [sys.exit] was called *)

(** How far [main] is. *)
Inductive main_pc : Type :=
| M_args                     (* lines 137-145 *)
| M_decrypt                  (* line 148 *)
| M_sigint                   (* lines 151-152, first iteration *)
| M_sigterm                  (* lines 151-152, second iteration *)
| M_watch                    (* lines 155-158 *)
| M_popen                    (* lines 161-163 *)
| M_wait                     (* line 164 *)
| M_except (e : exn)         (* line 166 *)
| M_cleanup                  (* line 169, before the call *)
| M_called.                  (* line 169, inside [cleanup_and_exit] *)

(** What the observer's thread is doing. *)
Inductive watch_pc : Type :=
| W_idle                     (* between two events *)
| W_enc (e : enc_pc)         (* line 101, inside [encrypt_back] *)
| W_log (e : exn)            (* line 104 *)
| W_crashed (e : exn).       (* [on_modified] let an exception through *)

Inductive observer : Type :=
| ObsRunning                 (* started *)
| ObsStopping                (* [stop()] was called, the thread is alive *)
| ObsFinished.               (* the thread has ended *)

Inductive child_t : Type :=
| ChildNone
| ChildRunning
| ChildExited (code : Z).

Inductive status_t : Type :=
| Running
| Exited (code : Z)          (* [sys.exit(code)] *)
| Uncaught (e : exn)         (* an exception left [main] *)
| Killed (sg : signal).      (* default action of a signal without handler *)

(** Who entered [cleanup_and_exit]: line 169 or a signal handler. *)
Inductive origin : Type :=
| FromMain
| FromSignal (sg : signal).

Record activation : Type := Act { act_origin : origin; act_pc : cleanup_pc }.

(** Who called [encrypt_back]: the watcher, or the [n]-th activation of
    [cleanup_and_exit] (counted from 0, oldest first). *)
Inductive who : Type :=
| Watcher
| Cleanup (n : nat).

Inductive event : Type :=
| EvDecrypted                         (* [decrypt_to_tmp] returned *)
| EvWatcherStart                      (* [WATCHER.start()] *)
| EvCleanup (n : nat) (o : origin)    (* activation [n] of [cleanup_and_exit] begins *)
| EvTerminate (n : nat)               (* [PROCESS.terminate()] *)
| EvEncCall (w : who)                 (* [encrypt_back] is called *)
| EvEncBegin (w : who)                (* lock acquired, backend invoked *)
| EvEncEnd (w : who) (r : result unit) (* lock released; [encrypt_back] returns or raises *)
| EvStderr (msg : string)             (* a line on stderr *)
| EvAck (n : nat)                     (* [input()] returned *)
| EvStop (n : nat)                    (* [WATCHER.stop()] *)
| EvJoin (n : nat)                    (* [WATCHER.join()] returned *)
| EvDestroy (n : nat)                 (* [shutil.rmtree(TEMP_DIR)] *)
| EvExit (n : nat) (code : Z).        (* [sys.exit(code)] in activation [n] *)

(** What the environment answers to a step that consults it. *)
Inductive env : Type :=
| EnvNone
| EnvExists (b : bool)                        (* [os.path.exists] *)
| EnvDecrypt (suffix : string) (p : completed) (* [mkdtemp]'s random part, gpg's report *)
| EnvCall (r : result unit)                   (* [Popen(...)] returned or raised *)
| EnvRun (o : run_outcome)                    (* [subprocess.run] *)
| EnvLine (l : string).                       (* the line typed at [input()] *)

Inductive action : Type :=
| Main (e : env)              (* the main thread runs its next statement *)
| Watch (e : env)             (* the observer thread runs its next statement *)
| Signal (sg : signal)        (* a signal is delivered *)
| Modified (src_path : string) (* the observer dispatches a modification event *)
| ChildExits (code : Z)       (* the child process ends *)
| ObserverEnds.               (* the stopped observer thread ends *)

(** The state of a session.  The upper-case fields are the module globals of
    the source. *)
Record state : Type := mkState {
  status : status_t;   (* whether the process is alive, and how it ended *)
  args_encrypted : string;   (* [args.encrypted], taken as an absolute path *)
  args_cmd : string;   (* [args.cmd] *)
  ENCRYPTED_FILE : option string;
  TEMP_DIR : option string;
  PLAINTEXT_FILE : option string;
  RECIP_KEY : option string;
  WATCHER : option observer;
  PROCESS : option (option Z);   (* the [Popen] object, as its [returncode] attribute *)
  _ENCRYPT_LOCK : bool;   (* [true] while the lock is held *)
  handles_int : bool;   (* [cleanup_and_exit] handles SIGINT *)
  handles_term : bool;   (* [cleanup_and_exit] handles SIGTERM *)
  observer_thread : watch_pc;   (* what the observer's thread is doing *)
  child : child_t;   (* the child process itself *)
  workspace : bool;   (* the directory [TEMP_DIR] exists *)
  plaintext : bool;   (* the plaintext file exists *)
  main_at : main_pc;   (* the statement [main] is at *)
  cleanups : list activation;   (* activations of [cleanup_and_exit], newest first *)
  trace : list event   (* what has happened so far, newest first *)
}.

Definition set_status (v : status_t) (s : state) : state :=
  mkState v (args_encrypted s) (args_cmd s) (ENCRYPTED_FILE s) (TEMP_DIR s)
    (PLAINTEXT_FILE s) (RECIP_KEY s) (WATCHER s) (PROCESS s) (_ENCRYPT_LOCK
    s) (handles_int s) (handles_term s) (observer_thread s) (child s)
    (workspace s) (plaintext s) (main_at s) (cleanups s) (trace s).

Definition set_ENCRYPTED_FILE (v : option string) (s : state) : state :=
  mkState (status s) (args_encrypted s) (args_cmd s) v (TEMP_DIR s)
    (PLAINTEXT_FILE s) (RECIP_KEY s) (WATCHER s) (PROCESS s) (_ENCRYPT_LOCK
    s) (handles_int s) (handles_term s) (observer_thread s) (child s)
    (workspace s) (plaintext s) (main_at s) (cleanups s) (trace s).

Definition set_TEMP_DIR (v : option string) (s : state) : state :=
  mkState (status s) (args_encrypted s) (args_cmd s) (ENCRYPTED_FILE s) v
    (PLAINTEXT_FILE s) (RECIP_KEY s) (WATCHER s) (PROCESS s) (_ENCRYPT_LOCK
    s) (handles_int s) (handles_term s) (observer_thread s) (child s)
    (workspace s) (plaintext s) (main_at s) (cleanups s) (trace s).

Definition set_PLAINTEXT_FILE (v : option string) (s : state) : state :=
  mkState (status s) (args_encrypted s) (args_cmd s) (ENCRYPTED_FILE s)
    (TEMP_DIR s) v (RECIP_KEY s) (WATCHER s) (PROCESS s) (_ENCRYPT_LOCK s)
    (handles_int s) (handles_term s) (observer_thread s) (child s)
    (workspace s) (plaintext s) (main_at s) (cleanups s) (trace s).

Definition set_RECIP_KEY (v : option string) (s : state) : state :=
  mkState (status s) (args_encrypted s) (args_cmd s) (ENCRYPTED_FILE s)
    (TEMP_DIR s) (PLAINTEXT_FILE s) v (WATCHER s) (PROCESS s) (_ENCRYPT_LOCK
    s) (handles_int s) (handles_term s) (observer_thread s) (child s)
    (workspace s) (plaintext s) (main_at s) (cleanups s) (trace s).

Definition set_WATCHER (v : option observer) (s : state) : state :=
  mkState (status s) (args_encrypted s) (args_cmd s) (ENCRYPTED_FILE s)
    (TEMP_DIR s) (PLAINTEXT_FILE s) (RECIP_KEY s) v (PROCESS s)
    (_ENCRYPT_LOCK s) (handles_int s) (handles_term s) (observer_thread s)
    (child s) (workspace s) (plaintext s) (main_at s) (cleanups s) (trace s).

Definition set_PROCESS (v : option (option Z)) (s : state) : state :=
  mkState (status s) (args_encrypted s) (args_cmd s) (ENCRYPTED_FILE s)
    (TEMP_DIR s) (PLAINTEXT_FILE s) (RECIP_KEY s) (WATCHER s) v
    (_ENCRYPT_LOCK s) (handles_int s) (handles_term s) (observer_thread s)
    (child s) (workspace s) (plaintext s) (main_at s) (cleanups s) (trace s).

Definition set_ENCRYPT_LOCK (v : bool) (s : state) : state :=
  mkState (status s) (args_encrypted s) (args_cmd s) (ENCRYPTED_FILE s)
    (TEMP_DIR s) (PLAINTEXT_FILE s) (RECIP_KEY s) (WATCHER s) (PROCESS s) v
    (handles_int s) (handles_term s) (observer_thread s) (child s)
    (workspace s) (plaintext s) (main_at s) (cleanups s) (trace s).

Definition set_handles_int (v : bool) (s : state) : state :=
  mkState (status s) (args_encrypted s) (args_cmd s) (ENCRYPTED_FILE s)
    (TEMP_DIR s) (PLAINTEXT_FILE s) (RECIP_KEY s) (WATCHER s) (PROCESS s)
    (_ENCRYPT_LOCK s) v (handles_term s) (observer_thread s) (child s)
    (workspace s) (plaintext s) (main_at s) (cleanups s) (trace s).

Definition set_handles_term (v : bool) (s : state) : state :=
  mkState (status s) (args_encrypted s) (args_cmd s) (ENCRYPTED_FILE s)
    (TEMP_DIR s) (PLAINTEXT_FILE s) (RECIP_KEY s) (WATCHER s) (PROCESS s)
    (_ENCRYPT_LOCK s) (handles_int s) v (observer_thread s) (child s)
    (workspace s) (plaintext s) (main_at s) (cleanups s) (trace s).

Definition set_observer_thread (v : watch_pc) (s : state) : state :=
  mkState (status s) (args_encrypted s) (args_cmd s) (ENCRYPTED_FILE s)
    (TEMP_DIR s) (PLAINTEXT_FILE s) (RECIP_KEY s) (WATCHER s) (PROCESS s)
    (_ENCRYPT_LOCK s) (handles_int s) (handles_term s) v (child s)
    (workspace s) (plaintext s) (main_at s) (cleanups s) (trace s).

Definition set_child (v : child_t) (s : state) : state :=
  mkState (status s) (args_encrypted s) (args_cmd s) (ENCRYPTED_FILE s)
    (TEMP_DIR s) (PLAINTEXT_FILE s) (RECIP_KEY s) (WATCHER s) (PROCESS s)
    (_ENCRYPT_LOCK s) (handles_int s) (handles_term s) (observer_thread s) v
    (workspace s) (plaintext s) (main_at s) (cleanups s) (trace s).

Definition set_workspace (v : bool) (s : state) : state :=
  mkState (status s) (args_encrypted s) (args_cmd s) (ENCRYPTED_FILE s)
    (TEMP_DIR s) (PLAINTEXT_FILE s) (RECIP_KEY s) (WATCHER s) (PROCESS s)
    (_ENCRYPT_LOCK s) (handles_int s) (handles_term s) (observer_thread s)
    (child s) v (plaintext s) (main_at s) (cleanups s) (trace s).

Definition set_plaintext (v : bool) (s : state) : state :=
  mkState (status s) (args_encrypted s) (args_cmd s) (ENCRYPTED_FILE s)
    (TEMP_DIR s) (PLAINTEXT_FILE s) (RECIP_KEY s) (WATCHER s) (PROCESS s)
    (_ENCRYPT_LOCK s) (handles_int s) (handles_term s) (observer_thread s)
    (child s) (workspace s) v (main_at s) (cleanups s) (trace s).

Definition set_main_at (v : main_pc) (s : state) : state :=
  mkState (status s) (args_encrypted s) (args_cmd s) (ENCRYPTED_FILE s)
    (TEMP_DIR s) (PLAINTEXT_FILE s) (RECIP_KEY s) (WATCHER s) (PROCESS s)
    (_ENCRYPT_LOCK s) (handles_int s) (handles_term s) (observer_thread s)
    (child s) (workspace s) (plaintext s) v (cleanups s) (trace s).

Definition set_cleanups (v : list activation) (s : state) : state :=
  mkState (status s) (args_encrypted s) (args_cmd s) (ENCRYPTED_FILE s)
    (TEMP_DIR s) (PLAINTEXT_FILE s) (RECIP_KEY s) (WATCHER s) (PROCESS s)
    (_ENCRYPT_LOCK s) (handles_int s) (handles_term s) (observer_thread s)
    (child s) (workspace s) (plaintext s) (main_at s) v (trace s).

Definition set_trace (v : list event) (s : state) : state :=
  mkState (status s) (args_encrypted s) (args_cmd s) (ENCRYPTED_FILE s)
    (TEMP_DIR s) (PLAINTEXT_FILE s) (RECIP_KEY s) (WATCHER s) (PROCESS s)
    (_ENCRYPT_LOCK s) (handles_int s) (handles_term s) (observer_thread s)
    (child s) (workspace s) (plaintext s) (main_at s) (cleanups s) v.

Definition handled (sg : signal) (s : state) : bool :=
  match sg with
  | SIGINT => handles_int s
  | SIGTERM => handles_term s
  end.

Definition emit (evs : list event) (s : state) : state :=
  set_trace (evs ++ trace s) s.

(** The state [main] starts in. *)
Definition init (encrypted cmd : string) : state :=
  mkState Running encrypted cmd None None None None None None false false
    false W_idle ChildNone false false M_args [] [].

(** [tempfile.mkdtemp(prefix="gpg-edit", dir="/dev/shm")] *)
Definition mkdtemp (suffix : string) : string := "/dev/shm/gpg-edit" ++ suffix.

(** Truth value of a string-or-None global. *)
Definition truthy (v : option string) : bool :=
  match v with
  | None => false
  | Some x => negb (String.eqb x "")
  end.

(** [f"{v}"] for a string-or-None global. *)
Definition fmt (v : option string) : string :=
  match v with
  | None => "None"
  | Some x => x
  end.

(** Line 132: [0 if (PROCESS and PROCESS.returncode in (0, None)) else 1]. *)
Definition exit_status (process : option (option Z)) : Z :=
  match process with
  | Some None => 0
  | Some (Some c) => if c =? 0 then 0 else 1
  | None => 1
  end.

(** [PROCESS.poll()]: the recorded return code, refreshed from the child. *)
Definition poll (rc : option Z) (c : child_t) : option Z :=
  match rc with
  | Some code => Some code
  | None => match c with ChildExited code => Some code | _ => None end
  end.

Definition cleanup_failed_msg (e : exn) : string :=
  "[ERROR]: Cleanup encryption failed: " ++ exn_str e.

Definition manual_msg (plaintext_file : option string) : string :=
  "Please manually re-encrypt " ++ fmt plaintext_file
    ++ " as you wish, and then press Enter to terminate this script. Otherwise, you will amost certainly LOSE DATA.".

Definition autosave_failed_msg (e : exn) : string :=
  "Automatic re-encryption failed: " ++ exn_str e.

(** *** encrypt_back *)

Inductive enc_next : Type :=
| Next (pc : enc_pc)         (* still inside [encrypt_back] *)
| Done (r : result unit).    (* it returned, or raised *)

(** One step of [encrypt_back(tmpfile, enc_path, keyid)] by caller [w]: the
    new value of the lock, where the activation goes, what is recorded. *)
Definition encrypt_back (w : who) (lock : bool) (pc : enc_pc) (e : env)
  : option (bool * enc_next * list event) :=
  match pc with
  | E_acquire =>
      if lock then None else Some (true, Next E_run, [EvEncBegin w])
  | E_run =>
      match e with
      | EnvRun o => Some (lock, Next (E_exit (encrypt_try o)), [])
      | _ => None
      end
  | E_exit r => Some (false, Done r, [EvEncEnd w r])
  end.

(** *** ChangeHandler.on_modified, on the observer's thread *)

(** The observer hands an event to [on_modified], one at a time: line 99
    compares its path with the plaintext's and line 101 calls
    [encrypt_back]. *)
Definition dispatch (src_path : string) (s : state) : option state :=
  match WATCHER s, observer_thread s with
  | Some ObsRunning, W_idle | Some ObsStopping, W_idle =>
      if String.eqb src_path (fmt (PLAINTEXT_FILE s))
      then Some (emit [EvEncCall Watcher] (set_observer_thread (W_enc E_acquire) s))
      else Some s
  | _, _ => None
  end.

(** One step of [on_modified] from line 101 on. *)
Definition on_modified (e : env) (s : state) : option state :=
  match observer_thread s with
  | W_enc pc =>
      match encrypt_back Watcher (_ENCRYPT_LOCK s) pc e with
      | None => None
      | Some (lock, next, evs) =>
          let s := emit evs (set_ENCRYPT_LOCK lock s) in
          Some (set_observer_thread
                  match next with
                  | Next pc' => W_enc pc'
                  | Done (Ok _) => W_idle
                  | Done (Raise (RuntimeError m)) => W_log (RuntimeError m)
                  | Done (Raise x) => W_crashed x
                  end s)
      end
  | W_log x =>
      Some (emit [EvStderr (autosave_failed_msg x)] (set_observer_thread W_idle s))
  | W_idle | W_crashed _ => None
  end.

(** The observer's thread ends, once stopped and out of its handler. *)
Definition observer_ends (s : state) : option state :=
  match WATCHER s, observer_thread s with
  | Some ObsStopping, W_idle => Some (set_WATCHER (Some ObsFinished) s)
  | _, _ => None
  end.

(** The child process ends, by itself or after [terminate()]. *)
Definition child_exits (code : Z) (s : state) : option state :=
  match child s with
  | ChildRunning => Some (set_child (ChildExited code) s)
  | _ => None
  end.

(** *** cleanup_and_exit *)

(** One step of activation [n] (of origin [o], at [pc]), the newest one;
    [older] are the activations below it.  [PROCESS.terminate()] may raise:
    lines 110-113 swallow the exception, so the step is the same either
    way.  The empty line that line 122 prints on stdout is not recorded. *)
Definition cleanup_and_exit (n : nat) (o : origin) (pc : cleanup_pc)
    (older : list activation) (e : env) (s : state) : option state :=
  let at_ pc' s' := set_cleanups (Act o pc' :: older) s' in
  match pc with
  | K_child =>
      match PROCESS s with
      | Some rc =>
          let rc' := poll rc (child s) in
          let s := set_PROCESS (Some rc') s in
          match rc' with
          | None =>
              Some (at_ K_call
                      (emit [EvTerminate n; EvStderr "Terminating child process..."] s))
          | Some _ => Some (at_ K_call s)
          end
      | None => Some (at_ K_call s)
      end
  | K_call => Some (at_ (K_enc E_acquire) (emit [EvEncCall (Cleanup n)] s))
  | K_enc epc =>
      match encrypt_back (Cleanup n) (_ENCRYPT_LOCK s) epc e with
      | None => None
      | Some (lock, next, evs) =>
          let s := emit evs (set_ENCRYPT_LOCK lock s) in
          Some (at_ match next with
                    | Next epc' => K_enc epc'
                    | Done (Ok _) => K_stop
                    | Done (Raise x) => K_report x
                    end s)
      end
  | K_report x =>
      Some (at_ K_input
              (emit [EvStderr (manual_msg (PLAINTEXT_FILE s));
                     EvStderr (cleanup_failed_msg x)] s))
  | K_input =>
      match e with
      | EnvLine _ => Some (at_ K_stop (emit [EvAck n] s))
      | _ => None
      end
  | K_stop =>
      match WATCHER s with
      | Some w =>
          let w' := match w with ObsRunning => ObsStopping | _ => w end in
          Some (at_ K_join (emit [EvStop n] (set_WATCHER (Some w') s)))
      | None => Some (at_ K_rmtree s)
      end
  | K_join =>
      match WATCHER s with
      | Some ObsFinished => Some (at_ K_rmtree (emit [EvJoin n] s))
      | _ => None
      end
  | K_rmtree =>
      if truthy (TEMP_DIR s) && workspace s
      then Some (at_ K_exit
                   (emit [EvDestroy n] (set_plaintext false (set_workspace false s))))
      else Some (at_ K_exit s)
  | K_exit =>
      let code := exit_status (PROCESS s) in
      Some (at_ K_exited (emit [EvExit n code] (set_status (Exited code) s)))
  | K_exited => None
  end.

(** Entering [cleanup_and_exit]: a new activation on top of the others. *)
Definition enter_cleanup (o : origin) (s : state) : state :=
  emit [EvCleanup (List.length (cleanups s)) o]
    (set_cleanups (Act o K_child :: cleanups s) s).

(** *** main *)

(** One step of [main] from line 137 on.  [decrypt_to_tmp] makes the
    directory, and gpg writes the plaintext when it exits 0. *)
Definition main (e : env) (s : state) : option state :=
  match main_at s with
  | M_args =>
      match e with
      | EnvExists b =>
          if String.eqb (args_cmd s) "" then
            Some (emit [EvStderr "Error: you must provide a command to run (with %FILE in it)."]
                    (set_status (Exited 1) s))
          else
            let s := set_ENCRYPTED_FILE (Some (args_encrypted s)) s in
            if b then Some (set_main_at M_decrypt s)
            else
              Some (emit [EvStderr ("Error: encrypted file does not exist: "
                                      ++ args_encrypted s)]
                      (set_status (Exited 1) s))
      | _ => None
      end
  | M_decrypt =>
      match e with
      | EnvDecrypt suffix p =>
          let s := set_plaintext (returncode p =? 0) (set_workspace true s) in
          match decrypt_to_tmp (mkdtemp suffix) (fmt (ENCRYPTED_FILE s)) p with
          | Ok (tmpdir, tmpfile, keyid) =>
              Some (emit [EvDecrypted]
                      (set_main_at M_sigint
                         (set_TEMP_DIR (Some tmpdir)
                            (set_PLAINTEXT_FILE (Some tmpfile)
                               (set_RECIP_KEY (Some keyid) s)))))
          | Raise x => Some (set_status (Uncaught x) s)
          end
      | _ => None
      end
  | M_sigint => Some (set_main_at M_sigterm (set_handles_int true s))
  | M_sigterm => Some (set_main_at M_watch (set_handles_term true s))
  | M_watch =>
      Some (emit [EvWatcherStart]
              (set_main_at M_popen (set_WATCHER (Some ObsRunning) s)))
  | M_popen =>
      match e with
      | EnvCall (Ok _) =>
          Some (set_main_at M_wait
                  (set_child ChildRunning (set_PROCESS (Some None) s)))
      | EnvCall (Raise x) => Some (set_main_at (M_except x) s)
      | _ => None
      end
  | M_wait =>
      match child s with
      | ChildExited code =>
          Some (set_main_at M_cleanup (set_PROCESS (Some (Some code)) s))
      | _ => None
      end
  | M_except x =>
      Some (emit [EvStderr ("Error running command: " ++ exn_str x)]
              (set_main_at M_cleanup s))
  | M_cleanup => Some (enter_cleanup FromMain (set_main_at M_called s))
  | M_called => None
  end.

(** *** the whole process *)

(** Delivery of a signal.  With the handler installed, the handler runs.
    Without it the signal takes its default action, which ends the process
    with no cleanup: SIGTERM at once, SIGINT through [KeyboardInterrupt],
    which no [except] clause of the file catches. *)
Definition deliver (sg : signal) (s : state) : option state :=
  if handled sg s then Some (enter_cleanup (FromSignal sg) s)
  else Some (set_status (Killed sg) s).

(** One step of the process: nothing moves once it has ended; the main
    thread runs its newest activation of [cleanup_and_exit] if there is one,
    [main] otherwise. *)
Definition step (a : action) (s : state) : option state :=
  match status s with
  | Running =>
      match a with
      | Main e =>
          match cleanups s with
          | Act o pc :: older => cleanup_and_exit (List.length older) o pc older e s
          | [] => main e s
          end
      | Watch e => on_modified e s
      | Signal sg => deliver sg s
      | Modified src_path => dispatch src_path s
      | ChildExits code => child_exits code s
      | ObserverEnds => observer_ends s
      end
  | _ => None
  end.

Fixpoint exec (acts : list action) (s : state) : option state :=
  match acts with
  | [] => Some s
  | a :: rest =>
      match step a s with
      | Some s' => exec rest s'
      | None => None
      end
  end.

(** The states a session can be in. *)
Definition reachable (s : state) : Prop :=
  exists encrypted cmd acts, exec acts (init encrypted cmd) = Some s.


(** ** Notions used by the statements *)

(** The activations of [encrypt_back] that satisfy [P], over the observer's
    thread and every activation of [cleanup_and_exit] on the main thread. *)
Definition enc_flag (P : enc_pc -> bool) (pc : option enc_pc) : nat :=
  match pc with
  | Some e => if P e then 1 else 0
  | None => 0
  end.

Definition cleanup_enc (a : activation) : option enc_pc :=
  match act_pc a with
  | K_enc e => Some e
  | _ => None
  end.

Definition watcher_enc (s : state) : option enc_pc :=
  match observer_thread s with
  | W_enc e => Some e
  | _ => None
  end.

Fixpoint count_cleanups (P : enc_pc -> bool) (l : list activation) : nat :=
  match l with
  | [] => 0
  | a :: rest => enc_flag P (cleanup_enc a) + count_cleanups P rest
  end.

Definition count_enc (P : enc_pc -> bool) (s : state) : nat :=
  enc_flag P (watcher_enc s) + count_cleanups P (cleanups s).

(** Inside the [with _ENCRYPT_LOCK] block. *)
Definition inside (pc : enc_pc) : bool :=
  match pc with
  | E_acquire => false
  | E_run | E_exit _ => true
  end.

(** The backend invocation is in progress. *)
Definition invoking (pc : enc_pc) : bool :=
  match pc with
  | E_run => true
  | _ => false
  end.

Definition holders (s : state) : nat := count_enc inside s.
Definition invocations (s : state) : nat := count_enc invoking s.

(** The activation an event belongs to, when it belongs to one. *)
Definition ev_id (ev : event) : option nat :=
  match ev with
  | EvCleanup n _ | EvTerminate n | EvAck n | EvStop n | EvJoin n
  | EvDestroy n | EvExit n _ => Some n
  | EvEncCall (Cleanup n) | EvEncBegin (Cleanup n) | EvEncEnd (Cleanup n) _ => Some n
  | _ => None
  end.

(** No event of the trace belongs to an activation numbered [k] or more. *)
Definition fresh_from (k : nat) (tr : list event) : Prop :=
  Forall (fun ev => match ev_id ev with Some m => (m < k)%nat | None => True end) tr.

(** [main] has gone past line 148. *)
Definition past_decrypt (m : main_pc) : bool :=
  match m with
  | M_args | M_decrypt => false
  | _ => true
  end.

(** What an event requires of the events before it. *)
Definition ev_ok (ev : event) (pre : list event) : Prop :=
  match ev with
  | EvDestroy n =>
      (In (EvEncEnd (Cleanup n) (Ok tt)) pre \/ In (EvAck n) pre)
      /\ (exists r, In (EvEncEnd (Cleanup n) r) pre)
      /\ (In (EvJoin n) pre \/ ~ In EvWatcherStart pre)
      /\ (forall m, ~ In (EvDestroy m) pre)
  | EvJoin n => In (EvStop n) pre
  | EvStop n => exists r, In (EvEncEnd (Cleanup n) r) pre
  | EvAck n => exists x, In (EvEncEnd (Cleanup n) (Raise x)) pre
  | EvEncEnd (Cleanup n) _ =>
      In (EvEncCall (Cleanup n)) pre
      /\ forall r, ~ In (EvEncEnd (Cleanup n) r) pre
  | EvEncCall (Cleanup n) =>
      ~ In (EvEncCall (Cleanup n)) pre
  | EvEncCall Watcher =>
      In EvWatcherStart pre /\ forall m, ~ In (EvJoin m) pre
  | EvExit _ _ => forall m c, ~ In (EvExit m c) pre
  | _ => True
  end.

Fixpoint trace_ok (tr : list event) : Prop :=
  match tr with
  | [] => True
  | ev :: pre => ev_ok ev pre /\ trace_ok pre
  end.

(** What the newest activation [n] of [cleanup_and_exit] has behind it. *)
Definition top_ok (s : state) (n : nat) (pc : cleanup_pc) : Prop :=
  let tr := trace s in
  let ended := exists r, In (EvEncEnd (Cleanup n) r) tr in
  let not_ended := forall r, ~ In (EvEncEnd (Cleanup n) r) tr in
  let called := In (EvEncCall (Cleanup n)) tr in
  let saved := In (EvEncEnd (Cleanup n) (Ok tt)) tr \/ In (EvAck n) tr in
  match pc with
  | K_child | K_call => ~ called /\ not_ended
  | K_enc _ => called /\ not_ended
  | K_report _ | K_input => exists x, In (EvEncEnd (Cleanup n) (Raise x)) tr
  | K_stop => saved /\ ended
  | K_join => saved /\ ended /\ In (EvStop n) tr
  | K_rmtree => saved /\ ended /\ (In (EvJoin n) tr \/ ~ In EvWatcherStart tr)
  | K_exit | K_exited => workspace s = false
  end.

Record session_inv (s : state) : Prop := {
  inv_fresh : fresh_from (List.length (cleanups s)) (trace s);
  inv_trace : trace_ok (trace s);
  inv_top :
    match cleanups s with
    | a :: older => top_ok s (List.length older) (act_pc a)
    | [] => True
    end;
  inv_join : forall m, In (EvJoin m) (trace s) -> WATCHER s = Some ObsFinished;
  inv_nowatcher : WATCHER s = None -> ~ In EvWatcherStart (trace s);
  inv_watcher : WATCHER s <> None -> In EvWatcherStart (trace s);
  inv_destroy : workspace s = true -> forall m, ~ In (EvDestroy m) (trace s);
  inv_plaintext : plaintext s = true -> workspace s = true;
  inv_present : past_decrypt (main_at s) = true ->
      plaintext s = true \/ exists n, In (EvDestroy n) (trace s);
  inv_exited : forall c, status s = Exited c ->
      workspace s = false /\ c = exit_status (PROCESS s);
  inv_exit_ev : forall m c, In (EvExit m c) (trace s) -> status s = Exited c;
  inv_early : past_decrypt (main_at s) = false ->
      cleanups s = [] /\ handles_int s = false /\ handles_term s = false
      /\ PROCESS s = None /\ WATCHER s = None
      /\ ((forall x, status s <> Uncaught x) -> workspace s = false);
  inv_tempdir : past_decrypt (main_at s) = true -> truthy (TEMP_DIR s) = true;
  inv_path : past_decrypt (main_at s) = true ->
      exists f, PLAINTEXT_FILE s = Some f;
  inv_child : (PROCESS s = None <-> child s = ChildNone)
      /\ (forall c, PROCESS s = Some (Some c) -> child s = ChildExited c);
  inv_killed : forall sg, status s = Killed sg -> handled sg s = false;
  inv_uncaught : forall x, status s = Uncaught x -> main_at s = M_decrypt
}.

(** Events that tell nothing about an activation of [cleanup_and_exit] nor
    about the start of the watcher. *)
Definition neutral (ev : event) : Prop :=
  match ev with
  | EvWatcherStart => False
  | _ => ev_id ev = None
  end.


(** Every character of [s] belongs to [chars]. *)
Fixpoint all_in (chars s : string) : bool :=
  match s with
  | EmptyString => true
  | String c rest => Py.mem c chars && all_in chars rest
  end.

(** Whether the last character of [s] belongs to [chars]. *)
Fixpoint ends_in (chars s : string) : bool :=
  match s with
  | EmptyString => false
  | String c EmptyString => Py.mem c chars
  | String _ rest => ends_in chars rest
  end.


(** The first line that passes the test of line 60. *)
Definition first_enc_to (lines : list string) : option string :=
  find (Py.startswith "[GNUPG:] ENC_TO") lines.


(** The lock is held exactly when one activation of [encrypt_back] is inside
    the [with] block. *)
Definition lock_inv (s : state) : Prop :=
  holders s = (if _ENCRYPT_LOCK s then 1 else 0)%nat.







(** ** Sample runs *)

Module Demo.

Definition gpg_ok : completed :=
  Completed 0 ("[GNUPG:] ENC_TO 0123456789ABCDEF 1 0" ++ String Py.nl "gpg: encrypted with RSA key").


Definition start : state := init "/home/u/notes.gpg" "vim %FILE".

Definition path : string := "/dev/shm/gpg-editk3x/notes".

(** Lines 137-148: the arguments are fine and decryption succeeds. *)
Definition decrypted : list action :=
  [Main (EnvExists true); Main (EnvDecrypt "k3x" gpg_ok)].

(** Lines 151-163: handlers, watcher and child are set up. *)
Definition active : list action :=
  decrypted ++ [Main EnvNone; Main EnvNone; Main EnvNone; Main (EnvCall (Ok tt))].

(** The child ends with [code] and line 169 calls [cleanup_and_exit]. *)
Definition child_done (code : Z) : list action :=
  active ++ [ChildExits code; Main EnvNone; Main EnvNone].

(** Lines 108-117 of an activation, up to the end of [encrypt_back]. *)
Definition final_encrypt (o : run_outcome) : list action :=
  [Main EnvNone; Main EnvNone; Main EnvNone; Main (EnvRun o); Main EnvNone].

(** Lines 127-132 of an activation. *)
Definition teardown : list action :=
  [Main EnvNone; ObserverEnds; Main EnvNone; Main EnvNone; Main EnvNone].

Definition after (acts : list action) : state :=
  match exec acts start with
  | Some s => s
  | None => start
  end.

End Demo.


(** The claims as the specification words them, where the code does
    otherwise. *)

(** C1 as stated: once decryption is done, however the session ends the
    plaintext is gone, and it is removed only after a successful final encrypt
    or an acknowledgement. *)
Definition C1_as_stated : Prop :=
  forall s, reachable s -> In EvDecrypted (trace s) ->
    (forall n post pre, trace s = (post ++ EvDestroy n :: pre)%list ->
       In (EvEncEnd (Cleanup n) (Ok tt)) pre \/ In (EvAck n) pre)
    /\ (status s <> Running -> plaintext s = false).

(** C4 as stated: after cleanup the exit status is 0 when the child exited
    with 0 or was never started, and nonzero when it exited with another
    code. *)
Definition C4_as_stated : Prop :=
  forall s n c, reachable s -> In (EvExit n c) (trace s) ->
    (child s = ChildNone -> c = 0)
    /\ (child s = ChildExited 0 -> c = 0)
    /\ (forall k, k <> 0 -> child s = ChildExited k -> c <> 0).

(** C7 as stated: stop after the final encrypt, join after stop, destruction
    after the join and once; and nobody calls [encrypt_back] once a final
    encrypt has been called. *)
Definition C7_as_stated : Prop :=
  forall s, reachable s ->
  forall post ev pre, trace s = (post ++ ev :: pre)%list ->
    match ev with
    | EvEncCall _ => forall n, ~ In (EvEncCall (Cleanup n)) pre
    | EvStop n => exists r, In (EvEncEnd (Cleanup n) r) pre
    | EvJoin n => In (EvStop n) pre
    | EvDestroy n =>
        (In (EvJoin n) pre \/ ~ In EvWatcherStart pre)
        /\ forall m, ~ In (EvDestroy m) pre
    | _ => True
    end.



(** Runs used below. *)

Definition contended : list action :=
  (Demo.active ++ [Modified Demo.path; Watch EnvNone; Signal SIGTERM;
                   Main EnvNone; Main EnvNone])%list.

(** No command could be launched: [Popen] raises, line 166 reports it and the
    cleanup runs to its end. *)
Definition launch_fails : list action :=
  (Demo.decrypted
     ++ [Main EnvNone; Main EnvNone; Main EnvNone;
         Main (EnvCall (Raise (OtherError "[Errno 12] Cannot allocate memory")));
         Main EnvNone; Main EnvNone]
     ++ Demo.final_encrypt (Ran Demo.gpg_ok) ++ Demo.teardown)%list.

(** SIGTERM arrives right after line 148, before line 152 has installed the
    handlers. *)
Definition early_signal : list action :=
  (Demo.decrypted ++ [Signal SIGTERM])%list.


(** The child has ended, the final encrypt of the cleanup has completed, and
    a modification event that was still on its way is delivered: the watcher
    calls [encrypt_back] and gets the lock. *)
Definition late_autosave : list action :=
  (Demo.child_done 0 ++ Demo.final_encrypt (Ran Demo.gpg_ok)
     ++ [Modified Demo.path; Watch EnvNone])%list.

Definition clean_run : list action :=
  (Demo.child_done 0 ++ Demo.final_encrypt (Ran Demo.gpg_ok) ++ Demo.teardown)%list.

Definition before_destroy : list event :=
  [EvJoin 0; EvStop 0; EvEncEnd (Cleanup 0) (Ok tt); EvEncBegin (Cleanup 0);
   EvEncCall (Cleanup 0); EvCleanup 0 FromMain; EvWatcherStart; EvDecrypted].


(** * Theorems *)

(** ** Strings *)

(** Small checks of the string functions against the interpreter's answers. *)
Example rstrip_app : Py.rstrip ".gpg" "app.gpg" = "a".
Proof. reflexivity. Qed.

Example rstrip_notes : Py.rstrip ".gpg" "notes.txt.gpg" = "notes.txt".
Proof. reflexivity. Qed.

Example removesuffix_app : Py.removesuffix ".gpg" "app.gpg" = "app".
Proof. reflexivity. Qed.

Example basename_abs : Py.basename "/home/u/secret.gpg" = "secret.gpg".
Proof. reflexivity. Qed.

Example basename_dir : Py.basename "/home/u/" = "".
Proof. reflexivity. Qed.

Example join_tmp : Py.join "/dev/shm/gpg-editab" "a" = "/dev/shm/gpg-editab/a".
Proof. reflexivity. Qed.

Example split_enc_to :
  Py.split "[GNUPG:] ENC_TO  ABCDEF0123456789 1 0"
  = ["[GNUPG:]"; "ENC_TO"; "ABCDEF0123456789"; "1"; "0"].
Proof. reflexivity. Qed.

Example splitlines_crlf :
  Py.splitlines ("a" ++ String (ascii_of_nat 13) (String Py.nl ("" ++ String Py.nl "b")))
  = ["a"; ""; "b"].
Proof. reflexivity. Qed.

Example splitlines_trailing :
  Py.splitlines (String "x" (String Py.nl "")) = ["x"].
Proof. reflexivity. Qed.

Example str_of_int_neg : str_of_int (-15) = "-15".
Proof. reflexivity. Qed.

Example str_of_int_zero : str_of_int 0 = "0".
Proof. reflexivity. Qed.

Section StringFacts.

Lemma rstrip_empty_iff chars s :
  Py.rstrip chars s = "" <-> all_in chars s = true.
Proof.
  induction s as [|c s IH]; simpl.
  - tauto.
  - destruct (Py.rstrip chars s) eqn:E.
    + destruct (Py.mem c chars); simpl.
      * tauto.
      * split; discriminate.
    + split; [discriminate|].
      rewrite andb_true_iff. intros [_ H]. apply IH in H. discriminate.
Qed.

Lemma rstrip_decompose chars s :
  exists t, s = Py.rstrip chars s ++ t /\ all_in chars t = true.
Proof.
  induction s as [|c s [t [Hs Ht]]]; simpl.
  - exists "". auto.
  - destruct (Py.rstrip chars s) eqn:E.
    + destruct (Py.mem c chars) eqn:M.
      * exists (String c s). simpl. rewrite M. split; [reflexivity|].
        apply rstrip_empty_iff. exact E.
      * exists t. simpl in *. split; [congruence | exact Ht].
    + exists t. simpl. split; [f_equal; exact Hs | exact Ht].
Qed.

Lemma rstrip_no_trailing chars s : ends_in chars (Py.rstrip chars s) = false.
Proof.
  induction s as [|c s IH]; simpl; [reflexivity|].
  destruct (Py.rstrip chars s) eqn:E.
  - destruct (Py.mem c chars) eqn:M; simpl; [reflexivity | exact M].
  - exact IH.
Qed.

Lemma basename_no_slash p : Py.mem "/"%char p = false -> Py.basename p = p.
Proof.
  destruct p as [|c p]; [reflexivity|].
  cbn [Py.basename Py.mem]. rewrite orb_false_iff. intros [Hc Hp].
  rewrite Hp, Ascii.eqb_sym, Hc. reflexivity.
Qed.

Lemma all_in_gpg_no_slash s :
  all_in ".gpg" s = true -> Py.mem "/"%char s = false.
Proof.
  induction s as [|c s IH]; [reflexivity|].
  cbn [all_in Py.mem]. rewrite andb_true_iff. intros [Hc Hs].
  rewrite (IH Hs), orb_false_r.
  destruct (Ascii.eqb_spec "/"%char c) as [<-|]; [discriminate | reflexivity].
Qed.

Lemma prefix_app p s : String.prefix p s = true -> exists r, s = p ++ r.
Proof.
  revert s. induction p as [|c p IH]; intros s H; simpl in *.
  - exists s. reflexivity.
  - destruct s as [|d s]; [discriminate|]. cbn [String.prefix] in H.
    destruct (ascii_dec c d) as [->|]; [|discriminate].
    destruct (IH _ H) as [r ->]. exists r. reflexivity.
Qed.

Lemma split_from_acc c acc s : Py.split_from (String c acc) s <> [].
Proof.
  revert c acc. induction s as [|d s IH]; intros c acc; simpl.
  - discriminate.
  - destruct (Py.isspace d); [discriminate | apply IH].
Qed.

(** A line that passes the [startswith] test always splits into at least
    two parts: the guard of line 63 never fails. *)
Lemma enc_to_line_two_parts line :
  Py.startswith "[GNUPG:] ENC_TO" line = true ->
  (2 <=? List.length (Py.split line))%nat = true.
Proof.
  intros H. apply prefix_app in H. destruct H as [r ->].
  unfold Py.split. cbn.
  destruct (Py.split_from "OT_CNE" r) eqn:E.
  - exfalso. exact (split_from_acc _ _ _ E).
  - reflexivity.
Qed.

Lemma split_from_tokens_nonempty acc s t :
  In t (Py.split_from acc s) -> t <> "".
Proof.
  assert (Hrev : forall a b, Py.rev_onto a b = "" -> a = "" /\ b = "").
  { induction a as [|c a IH]; simpl; intros b Hb; [auto|].
    apply IH in Hb. destruct Hb as [_ Hb]. discriminate. }
  revert acc. induction s as [|c s IH]; intros acc; simpl.
  - destruct acc; simpl; [tauto|]. intros [<-|[]] Ht.
    apply Hrev in Ht. destruct Ht. discriminate.
  - destruct (Py.isspace c).
    + destruct acc; [apply IH|]. simpl. intros [<-|H]; [|exact (IH _ H)].
      intros Ht. apply Hrev in Ht. destruct Ht. discriminate.
    + apply IH.
Qed.

End StringFacts.

(** ** The crypto gateway *)

Lemma decrypt_to_tmp_ok tmpdir enc p d f k :
  decrypt_to_tmp tmpdir enc p = Ok (d, f, k) ->
  d = tmpdir /\ f = Py.join tmpdir (plaintext_name enc) /\ returncode p = 0.
Proof.
  unfold decrypt_to_tmp. destruct (returncode p =? 0) eqn:E; simpl; [|discriminate].
  apply Z.eqb_eq in E.
  destruct (scan_keyid _) as [[k'|]|]; simpl; try discriminate.
  destruct (String.eqb k' ""); [discriminate|]. intros H. injection H as <- <- <-. auto.
Qed.

Lemma scan_keyid_first lines :
  scan_keyid lines =
  match first_enc_to lines with
  | None => Ok None
  | Some line =>
      match nth_error (Py.split line) 2 with
      | Some k => Ok (Some k)
      | None => Raise (IndexError "list index out of range")
      end
  end.
Proof.
  unfold first_enc_to. induction lines as [|line rest IH]; [reflexivity|].
  cbn [scan_keyid find].
  destruct (Py.startswith "[GNUPG:] ENC_TO" line) eqn:E; [|exact IH].
  rewrite (enc_to_line_two_parts _ E). reflexivity.
Qed.

Lemma split_third_nonempty line k : nth_error (Py.split line) 2 = Some k -> k <> "".
Proof.
  intros H. apply nth_error_In in H. exact (split_from_tokens_nonempty _ _ _ H).
Qed.

(** What [decrypt_to_tmp] does, case by case. *)
Lemma decrypt_to_tmp_cases tmpdir enc p :
  decrypt_to_tmp tmpdir enc p =
  if negb (returncode p =? 0) then Raise (RuntimeError (decrypt_failed_msg p))
  else
    match first_enc_to (Py.splitlines (stderr p)) with
    | None => Raise (RuntimeError no_recipient_msg)
    | Some line =>
        match nth_error (Py.split line) 2 with
        | Some k => Ok (tmpdir, Py.join tmpdir (plaintext_name enc), k)
        | None => Raise (IndexError "list index out of range")
        end
    end.
Proof.
  unfold decrypt_to_tmp. destruct (negb (returncode p =? 0)); [reflexivity|].
  rewrite scan_keyid_first.
  destruct (first_enc_to _) as [line|]; [|reflexivity].
  destruct (nth_error (Py.split line) 2) as [k|] eqn:E; [|reflexivity].
  cbn [falsy]. apply split_third_nonempty in E.
  destruct (String.eqb_spec k ""); [contradiction | reflexivity].
Qed.

(** C5.  A status stream whose [ENC_TO] line carries no key id makes the scan
    read [parts[2]] of a two-element list: the guard [len(parts) >= 2] holds
    there (it holds for every line that passes the [startswith] test), and
    the scan ends with [IndexError] instead of a recipient or the
    no-recipient error. *)
Theorem C5_scan_reads_out_of_bounds :
  let line := "[GNUPG:] ENC_TO" in
  Py.splitlines line = [line]
  /\ Py.startswith "[GNUPG:] ENC_TO" line = true
  /\ Py.split line = ["[GNUPG:]"; "ENC_TO"]
  /\ (2 <=? List.length (Py.split line))%nat = true
  /\ nth_error (Py.split line) 2 = None
  /\ scan_keyid (Py.splitlines line) = Raise (IndexError "list index out of range").
Proof. repeat split; reflexivity. Qed.

(** C6.  With a backend that exits zero and a status stream whose [ENC_TO]
    line carries no key id, [decrypt_to_tmp] neither returns nor raises one of
    its two [RuntimeError]s: the [IndexError] of the scan leaves it. *)
Theorem C6_decrypt_third_outcome :
  let p := Completed 0 ("gpg: encrypted with RSA key" ++ String Py.nl "[GNUPG:] ENC_TO") in
  returncode p = 0
  /\ first_enc_to (Py.splitlines (stderr p)) = Some "[GNUPG:] ENC_TO"
  /\ decrypt_to_tmp "/dev/shm/gpg-editk3x" "/home/u/notes.gpg" p
     = Raise (IndexError "list index out of range").
Proof. repeat split; reflexivity. Qed.

(** C10.  The plaintext name is the basename with every trailing character of
    the set of ".gpg" removed: the basename is the name followed by
    characters of the set only, and the name does not end in one; for
    "app.gpg" the name is "a", where removing the suffix gives "app"; a
    basename made of characters of the set only gives the empty name; and
    this name is the one [decrypt_to_tmp] joins to the temporary directory. *)
Theorem C10_plaintext_name_strips_character_set :
  (forall enc_path, exists t,
      Py.basename enc_path = plaintext_name enc_path ++ t
      /\ all_in ".gpg" t = true
      /\ ends_in ".gpg" (plaintext_name enc_path) = false)
  /\ (plaintext_name "/home/u/app.gpg" = "a"
      /\ Py.removesuffix ".gpg" (Py.basename "/home/u/app.gpg") = "app")
  /\ (forall b, all_in ".gpg" b = true -> plaintext_name b = "")
  /\ (forall tmpdir enc_path p d f k,
        decrypt_to_tmp tmpdir enc_path p = Ok (d, f, k) ->
        f = Py.join tmpdir (Py.rstrip ".gpg" (Py.basename enc_path))).
Proof.
  split; [|split; [|split]].
  - intros enc_path. unfold plaintext_name.
    destruct (rstrip_decompose ".gpg" (Py.basename enc_path)) as [t [H1 H2]].
    exists t. split; [exact H1|]. split; [exact H2|]. apply rstrip_no_trailing.
  - split; reflexivity.
  - intros b H. unfold plaintext_name.
    rewrite (basename_no_slash b (all_in_gpg_no_slash b H)).
    apply rstrip_empty_iff. exact H.
  - intros tmpdir enc_path p d f k H.
    apply decrypt_to_tmp_ok in H. destruct H as (_ & H & _). exact H.
Qed.

Lemma C10_witness :
  plaintext_name "gpg.gpg" = ""
  /\ "/dev/shm/gpg-editk3x/a"
     = Py.join "/dev/shm/gpg-editk3x" (Py.rstrip ".gpg" (Py.basename "/home/u/app.gpg")).
Proof.
  split.
  - apply (proj1 (proj2 (proj2 C10_plaintext_name_strips_character_set)) "gpg.gpg").
    reflexivity.
  - apply (proj2 (proj2 (proj2 C10_plaintext_name_strips_character_set))
             "/dev/shm/gpg-editk3x" "/home/u/app.gpg"
             (Completed 0 "[GNUPG:] ENC_TO 0123456789ABCDEF 1 0")
             "/dev/shm/gpg-editk3x" "/dev/shm/gpg-editk3x/a" "0123456789ABCDEF").
    reflexivity.
Defined.

(** ** Stepping *)

(** Case analysis of one step: every way [step a s] can be [Some s'].  The
    invariant hypotheses are to be left folded while it runs. *)
Ltac tidy :=
  repeat match goal with
    | H : Some _ = Some _ |- _ => inversion H; subst; clear H
    | H : (_, _) = (_, _) |- _ => inversion H; subst; clear H
    | H : Some _ = None |- _ => discriminate H
    | H : None = Some _ |- _ => discriminate H
    end.

Ltac break_eqs :=
  repeat match goal with
    | E : ?l = _ |- _ =>
        match l with
        | context [match ?x with _ => _ end] =>
            destruct x eqn:?; try discriminate E
        end
    end.

Ltac step_cases H :=
  unfold step, main, cleanup_and_exit, on_modified, deliver, dispatch,
    child_exits, observer_ends, encrypt_back, enter_cleanup, handled, poll in H;
  cbn [status args_encrypted args_cmd ENCRYPTED_FILE TEMP_DIR PLAINTEXT_FILE
         RECIP_KEY WATCHER PROCESS _ENCRYPT_LOCK handles_int handles_term
         observer_thread child workspace plaintext main_at cleanups trace] in H;
  break_eqs; tidy.

Lemma reachable_ind (P : state -> Prop) :
  (forall encrypted cmd, P (init encrypted cmd)) ->
  (forall a s s', P s -> step a s = Some s' -> P s') ->
  forall s, reachable s -> P s.
Proof.
  intros Hinit Hstep s (encrypted & cmd & acts & H).
  generalize (Hinit encrypted cmd). revert H.
  generalize (init encrypted cmd) as s0. induction acts as [|a acts IH];
    intros s0 H P0; simpl in H.
  - injection H as <-. exact P0.
  - destruct (step a s0) as [s1|] eqn:E; [|discriminate].
    exact (IH s1 H (Hstep a s0 s1 P0 E)).
Qed.



(** ** The lock *)

Lemma lock_inv_step a s s' : lock_inv s -> step a s = Some s' -> lock_inv s'.
Proof.
  intros I H. destruct s. step_cases H.
  all: unfold lock_inv, holders, count_enc, watcher_enc in *; cbn in *.
  all: try exact I; try lia.
  all: match type of I with context [if ?b then _ else _] => destruct b end; lia.
Qed.

(** ** The session invariant *)

Lemma fresh_from_mono k k' tr : (k <= k')%nat -> fresh_from k tr -> fresh_from k' tr.
Proof.
  intros L. unfold fresh_from. apply Forall_impl. intros ev.
  destruct (ev_id ev); [lia | auto].
Qed.

Lemma fresh_not_in k tr ev m : fresh_from k tr -> ev_id ev = Some m -> (k <= m)%nat -> ~ In ev tr.
Proof.
  intros F E L I. unfold fresh_from in F. rewrite Forall_forall in F.
  specialize (F _ I). rewrite E in F. lia.
Qed.

Lemma top_ok_cons s s' n pc ev :
  top_ok s n pc -> trace s' = ev :: trace s -> neutral ev ->
  workspace s' = workspace s -> top_ok s' n pc.
Proof.
  unfold top_ok. intros T -> N ->.
  assert (P : forall x, ev_id x = Some n -> In x (ev :: trace s) -> In x (trace s)).
  { intros x Hx [<-|H]; [|exact H].
    destruct ev as [| | | |[]|[]|[]| | | | | |]; simpl in N, Hx; congruence. }
  assert (Q : In EvWatcherStart (ev :: trace s) -> In EvWatcherStart (trace s)).
  { intros [->|H]; [contradiction N | exact H]. }
  assert (R : forall x, In x (trace s) -> In x (ev :: trace s)) by (intros; right; assumption).
  unfold not in *.
  destruct pc; try exact T.
  all: repeat match goal with
         | H : _ /\ _ |- _ => destruct H
         | H : exists _, _ |- _ => destruct H
         | H : _ \/ _ |- _ => destruct H
         | |- _ /\ _ => split
         | |- forall _, _ => intro
         | H : In EvWatcherStart (_ :: _) |- _ => apply Q in H
         | H : In _ (_ :: _) |- _ => apply P in H; [|reflexivity]
         end; eauto 6.
Qed.

Lemma top_ok_same s s' n pc :
  top_ok s n pc -> trace s' = trace s ->
  workspace s' = workspace s -> top_ok s' n pc.
Proof. unfold top_ok. intros T -> ->. exact T. Qed.

Ltac prep :=
  repeat match goal with
    | H : ?x = ?x -> _ |- _ => specialize (H eq_refl)
    | H : false = true -> _ |- _ => clear H
    | H : true = false -> _ |- _ => clear H
    | H : past_decrypt ?m = false -> _ |- _ => destruct (past_decrypt m) eqn:?
    | H : Some ?x <> None -> _ |- _ =>
        let P := fresh in
        assert (P : Some x <> None) by discriminate; specialize (H P); clear P
    | H : (forall x, ?a <> ?b x) -> _ |- _ =>
        let P := fresh in
        assert (P : forall x, a <> b x) by (intros; discriminate);
        specialize (H P); clear P
    | H : _ /\ _ |- _ => destruct H
    | H : True |- _ => clear H
    end.

Ltac forward :=
  repeat match goal with
    | H : forall m c, In (EvExit m c) ?t -> _, H2 : In (EvExit _ _) ?t |- _ =>
        specialize (H _ _ H2)
    | H : forall m, In (EvJoin m) ?t -> _, H2 : In (EvJoin _) ?t |- _ =>
        specialize (H _ H2)
    | H : forall c, ?p = Some (Some c) -> _, H2 : ?p = Some (Some _) |- _ =>
        specialize (H _ H2)
    | H : fresh_from ?k ?t, H2 : In ?ev ?t |- _ =>
        exfalso; exact (fresh_not_in k t ev _ H eq_refl ltac:(cbn; lia) H2)
    | H : decrypt_to_tmp _ _ _ = Ok _ |- _ =>
        apply decrypt_to_tmp_ok in H
    | H : returncode ?p = 0 |- _ => rewrite H in *; clear H
    | H : _ && _ = true |- _ => apply andb_true_iff in H
    | H : _ && _ = false |- _ => apply andb_false_iff in H
    | x : unit |- _ => destruct x
    | H : ?a = ?b |- _ => first [discriminate H | (progress (injection H as H); subst)]
    | H : _ \/ _ |- _ => destruct H
    | H : exists _, _ |- _ => destruct H
    | H : _ /\ _ |- _ => destruct H
    | H : False |- _ => destruct H
    end.

Ltac fresh_tac :=
  repeat (apply Forall_cons; [cbn; try lia; exact I|]);
  first [ assumption
        | eapply fresh_from_mono; [|eassumption]; cbn; lia ].

Ltac quick := solve [ assumption | exact I | reflexivity | fresh_tac ].

Ltac top_tac :=
  match goal with
  | |- match ?c with [] => True | _ => _ end =>
      destruct c as [|[? ?] ?];
      [ exact I
      | first [ eapply top_ok_same; [eassumption | reflexivity | reflexivity]
              | eapply top_ok_cons;
                [eassumption | reflexivity | cbn; reflexivity | reflexivity] ] ]
  end.

Ltac heavy :=
  solve [ unfold not in *; repeat first [split | intro]; forward; subst;
          intuition (try discriminate; try congruence; eauto) ].

Ltac unchanged I :=
  first [ exact (inv_fresh _ I) | exact (inv_trace _ I) | exact (inv_top _ I)
        | exact (inv_join _ I) | exact (inv_nowatcher _ I)
        | exact (inv_watcher _ I) | exact (inv_destroy _ I)
        | exact (inv_plaintext _ I) | exact (inv_present _ I)
        | exact (inv_exited _ I) | exact (inv_exit_ev _ I)
        | exact (inv_early _ I) | exact (inv_tempdir _ I)
        | exact (inv_path _ I)
        | exact (inv_child _ I) | exact (inv_killed _ I)
        | exact (inv_uncaught _ I) ].

Lemma session_inv_step a s s' : session_inv s -> step a s = Some s' -> session_inv s'.
Proof.
  intros I H. destruct s. step_cases H.
  all: constructor; cbn -[append].
  all: try unchanged I.
  all: destruct I; cbn -[append] in *; prep.
  all: try quick.
  all: try top_tac.
  all: heavy.
Qed.

Lemma session_inv_init encrypted cmd : session_inv (init encrypted cmd).
Proof.
  constructor; cbn; try solve [constructor | tauto | discriminate | intros; discriminate].
  split; [tauto | discriminate].
Qed.

Lemma reachable_inv s : reachable s -> session_inv s.
Proof.
  apply reachable_ind.
  - apply session_inv_init.
  - intros a s0 s1 I H. exact (session_inv_step a s0 s1 I H).
Qed.

Lemma trace_ok_split post ev pre : trace_ok (post ++ ev :: pre)%list -> ev_ok ev pre.
Proof.
  induction post as [|e post IH]; simpl; intros [H1 H2]; auto.
Qed.

(** ** Runs and traces *)

Ltac in_list := repeat (first [left; reflexivity | right]).

Lemma reachable_trace s post ev pre :
  reachable s -> trace s = (post ++ ev :: pre)%list -> ev_ok ev pre.
Proof.
  intros R E. pose proof (inv_trace s (reachable_inv s R)) as T.
  rewrite E in T. exact (trace_ok_split _ _ _ T).
Qed.

(** ** The lock *)

Lemma reachable_lock s : reachable s -> lock_inv s.
Proof.
  apply reachable_ind.
  - reflexivity.
  - exact lock_inv_step.
Qed.

Lemma count_cleanups_le l : (count_cleanups invoking l <= count_cleanups inside l)%nat.
Proof.
  induction l as [|[o pc] l IH]; simpl; [lia|].
  unfold cleanup_enc; simpl. destruct pc as [| |[]| | | | | | |]; simpl; lia.
Qed.

Lemma invocations_le_holders s : (invocations s <= holders s)%nat.
Proof.
  unfold invocations, holders, count_enc.
  pose proof (count_cleanups_le (cleanups s)).
  unfold watcher_enc. destruct (observer_thread s) as [|[]| |]; simpl; lia.
Qed.

(** C2.  In every state of a session at most one backend invocation of
    [encrypt_back] is in progress, over the watcher's thread and all
    activations of [cleanup_and_exit]; one is in progress only with the lock
    held; the lock is held exactly when one activation is inside the [with]
    block; and leaving the block releases the lock whatever the result, a
    return or a raise. *)
Theorem C2_one_encrypt_at_a_time s :
  reachable s ->
  (invocations s <= 1)%nat
  /\ ((0 < invocations s)%nat -> _ENCRYPT_LOCK s = true)
  /\ holders s = (if _ENCRYPT_LOCK s then 1 else 0)%nat
  /\ (forall w lock r e,
        encrypt_back w lock (E_exit r) e = Some (false, Done r, [EvEncEnd w r])).
Proof.
  intros R. pose proof (reachable_lock s R) as L. unfold lock_inv in L.
  pose proof (invocations_le_holders s) as H.
  repeat split.
  - destruct (_ENCRYPT_LOCK s); lia.
  - destruct (_ENCRYPT_LOCK s); [reflexivity | lia].
  - exact L.
Qed.

Lemma C2_witness :
  reachable (Demo.after contended)
  /\ invocations (Demo.after contended) = 1%nat
  /\ _ENCRYPT_LOCK (Demo.after contended) = true
  /\ step (Main EnvNone) (Demo.after contended) = None.
Proof.
  assert (R : reachable (Demo.after contended)).
  { exists "/home/u/notes.gpg", "vim %FILE", contended. vm_compute. reflexivity. }
  split; [exact R|].
  split; [vm_compute; reflexivity|].
  split; [|vm_compute; reflexivity].
  apply (proj1 (proj2 (C2_one_encrypt_at_a_time _ R))). vm_compute. lia.
Defined.

(** ** The watcher *)






(** ** The exit status *)

(** C4, the code against the claim as stated: when [Popen] raises no child is
    ever started, the cleanup encrypt succeeds, and the process exits with
    status 1. *)
Lemma C4_counterexample :
  status (Demo.after launch_fails) = Exited 1
  /\ child (Demo.after launch_fails) = ChildNone
  /\ PROCESS (Demo.after launch_fails) = None
  /\ In (EvEncEnd (Cleanup 0) (Ok tt)) (trace (Demo.after launch_fails))
  /\ ~ C4_as_stated.
Proof.
  split; [vm_compute; reflexivity|].
  split; [vm_compute; reflexivity|].
  split; [vm_compute; reflexivity|].
  split; [vm_compute; in_list|].
  intros H.
  assert (R : reachable (Demo.after launch_fails)).
  { exists "/home/u/notes.gpg", "vim %FILE", launch_fails. vm_compute. reflexivity. }
  destruct (H _ 0%nat 1 R) as [H1 _].
  - vm_compute. in_list.
  - assert (C : child (Demo.after launch_fails) = ChildNone) by (vm_compute; reflexivity).
    specialize (H1 C). discriminate H1.
Qed.

(** C4, amended.  When the process has exited, its status is
    [exit_status PROCESS]: 1 when no child was ever started, 0 when a child
    was started and its recorded return code is 0 or still [None], 1 when the
    recorded code is not 0.  The recorded code is the child's own.  Nothing
    else enters: two sessions that end with the same [PROCESS] end with the
    same status, whatever their cleanup encrypts did. *)
Theorem C4_exit_status_from_child s c :
  reachable s -> status s = Exited c ->
  c = exit_status (PROCESS s)
  /\ (child s = ChildNone -> c = 1)
  /\ (PROCESS s = Some None -> child s <> ChildNone /\ c = 0)
  /\ (forall k, PROCESS s = Some (Some k) ->
        child s = ChildExited k /\ c = (if k =? 0 then 0 else 1))
  /\ (forall s2 c2, reachable s2 -> status s2 = Exited c2 ->
        PROCESS s2 = PROCESS s -> c2 = c).
Proof.
  intros R E. pose proof (reachable_inv s R) as I.
  destruct (inv_exited s I c E) as [_ Hc].
  destruct (inv_child s I) as [[N1 N2] P].
  split; [exact Hc|]. split; [|split; [|split]].
  - intros C. rewrite (N2 C) in Hc. exact Hc.
  - intros Pn. split.
    + intros C. rewrite (N2 C) in Pn. discriminate.
    + rewrite Pn in Hc. exact Hc.
  - intros k Pk. split; [exact (P k Pk)|]. rewrite Pk in Hc. exact Hc.
  - intros s2 c2 R2 E2 HP. pose proof (reachable_inv s2 R2) as I2.
    destruct (inv_exited s2 I2 c2 E2) as [_ Hc2]. congruence.
Qed.

Lemma C4_witness :
  1 = exit_status (PROCESS (Demo.after launch_fails))
  /\ (child (Demo.after launch_fails) = ChildNone -> 1 = 1).
Proof.
  assert (R : reachable (Demo.after launch_fails)).
  { exists "/home/u/notes.gpg", "vim %FILE", launch_fails. vm_compute. reflexivity. }
  assert (E : status (Demo.after launch_fails) = Exited 1) by (vm_compute; reflexivity).
  destruct (C4_exit_status_from_child _ 1 R E) as (H1 & H2 & _).
  split; [exact H1 | exact H2].
Defined.

(** ** Removal of the plaintext *)

(** C1, the code against the claim as stated: a SIGTERM delivered after
    decryption and before the handlers are installed ends the process with the
    plaintext still in the workspace, with no encrypt and no
    acknowledgement. *)
Lemma C1_counterexample :
  status (Demo.after early_signal) = Killed SIGTERM
  /\ plaintext (Demo.after early_signal) = true
  /\ trace (Demo.after early_signal) = [EvDecrypted]
  /\ ~ C1_as_stated.
Proof.
  split; [vm_compute; reflexivity|].
  split; [vm_compute; reflexivity|].
  split; [vm_compute; reflexivity|].
  intros H.
  assert (R : reachable (Demo.after early_signal)).
  { exists "/home/u/notes.gpg", "vim %FILE", early_signal. vm_compute. reflexivity. }
  destruct (H _ R) as [_ H2].
  - vm_compute. in_list.
  - assert (P : plaintext (Demo.after early_signal) = true) by (vm_compute; reflexivity).
    rewrite H2 in P; [discriminate P|]. vm_compute. discriminate.
Qed.

(** C1, amended.  The workspace is destroyed by an activation of
    [cleanup_and_exit] only after that activation's encrypt succeeded or its
    prompt was acknowledged; after decryption the plaintext is absent only if
    the workspace was destroyed; when the process ends through [sys.exit] the
    workspace and the plaintext are gone; and the process ends on a signal
    only when that signal's handler was not installed yet. *)
Theorem C1_plaintext_removed_after_encrypt_or_ack s :
  reachable s ->
  (forall n post pre, trace s = (post ++ EvDestroy n :: pre)%list ->
     In (EvEncEnd (Cleanup n) (Ok tt)) pre \/ In (EvAck n) pre)
  /\ (past_decrypt (main_at s) = true -> plaintext s = false ->
      exists n, In (EvDestroy n) (trace s))
  /\ (forall c, status s = Exited c -> workspace s = false /\ plaintext s = false)
  /\ (forall sg, status s = Killed sg -> handled sg s = false).
Proof.
  intros R. pose proof (reachable_inv s R) as I.
  split; [|split; [|split]].
  - intros n post pre E. exact (proj1 (reachable_trace s post _ pre R E)).
  - intros P F. destruct (inv_present s I P) as [T|D]; [congruence | exact D].
  - intros c E. destruct (inv_exited s I c E) as [W _]. split; [exact W|].
    destruct (plaintext s) eqn:P; [|reflexivity].
    rewrite (inv_plaintext s I P) in W. discriminate.
  - exact (inv_killed s I).
Qed.

Lemma C1_witness :
  (In (EvEncEnd (Cleanup 0) (Ok tt)) before_destroy \/ In (EvAck 0) before_destroy)
  /\ workspace (Demo.after clean_run) = false
  /\ plaintext (Demo.after clean_run) = false.
Proof.
  assert (R : reachable (Demo.after clean_run)).
  { exists "/home/u/notes.gpg", "vim %FILE", clean_run. vm_compute. reflexivity. }
  destruct (C1_plaintext_removed_after_encrypt_or_ack _ R) as (H1 & _ & H3 & _).
  split.
  - apply (H1 0%nat [EvExit 0 0] before_destroy). vm_compute. reflexivity.
  - apply (H3 0). vm_compute. reflexivity.
Defined.

(** ** A failed cleanup encrypt *)











(** ** Order of the cleanup steps *)

(** C7, the code against the claim as stated: after the final encrypt of the
    cleanup has begun, and even after it has ended, the watcher, which is
    stopped only afterwards, calls [encrypt_back] and runs the backend. *)
Lemma C7_counterexample :
  trace (Demo.after late_autosave)
  = [EvEncBegin Watcher; EvEncCall Watcher;
     EvEncEnd (Cleanup 0) (Ok tt); EvEncBegin (Cleanup 0); EvEncCall (Cleanup 0);
     EvCleanup 0 FromMain; EvWatcherStart; EvDecrypted]
  /\ ~ C7_as_stated.
Proof.
  assert (T : trace (Demo.after late_autosave)
              = [EvEncBegin Watcher; EvEncCall Watcher;
                 EvEncEnd (Cleanup 0) (Ok tt); EvEncBegin (Cleanup 0);
                 EvEncCall (Cleanup 0);
                 EvCleanup 0 FromMain; EvWatcherStart; EvDecrypted])
    by (vm_compute; reflexivity).
  split; [exact T|].
  intros H.
  assert (R : reachable (Demo.after late_autosave)).
  { exists "/home/u/notes.gpg", "vim %FILE", late_autosave. vm_compute. reflexivity. }
  apply (H _ R [EvEncBegin Watcher] (EvEncCall Watcher) _ T 0%nat). in_list.
Qed.

(** C7, amended.  In every session: an activation of [cleanup_and_exit] calls
    [encrypt_back] once, and that call ends once; it stops the watcher only
    after its encrypt has ended, joins it only after stopping it, and destroys
    the workspace only after its encrypt has ended and after the join (or with
    no watcher ever started); the workspace is destroyed at most once; and the
    watcher calls [encrypt_back] only before it is joined. *)
Theorem C7_cleanup_steps_in_order s post ev pre :
  reachable s -> trace s = (post ++ ev :: pre)%list ->
  match ev with
  | EvEncCall (Cleanup n) => ~ In (EvEncCall (Cleanup n)) pre
  | EvEncCall Watcher => forall m, ~ In (EvJoin m) pre
  | EvEncEnd (Cleanup n) _ =>
      In (EvEncCall (Cleanup n)) pre
      /\ forall r, ~ In (EvEncEnd (Cleanup n) r) pre
  | EvStop n => exists r, In (EvEncEnd (Cleanup n) r) pre
  | EvJoin n => In (EvStop n) pre
  | EvDestroy n =>
      (exists r, In (EvEncEnd (Cleanup n) r) pre)
      /\ (In (EvJoin n) pre \/ ~ In EvWatcherStart pre)
      /\ (forall m, ~ In (EvDestroy m) pre)
  | _ => True
  end.
Proof.
  intros R E. pose proof (reachable_trace s post ev pre R E) as H.
  destruct ev as [| | | |[]|[]|[]| | | | | |]; simpl in H; try exact I; try tauto.
Qed.

Lemma C7_witness :
  (exists r, In (EvEncEnd (Cleanup 0) r) before_destroy)
  /\ (In (EvJoin 0) before_destroy \/ ~ In EvWatcherStart before_destroy)
  /\ (forall m, ~ In (EvDestroy m) before_destroy).
Proof.
  assert (R : reachable (Demo.after clean_run)).
  { exists "/home/u/notes.gpg", "vim %FILE", clean_run. vm_compute. reflexivity. }
  apply (C7_cleanup_steps_in_order (Demo.after clean_run) [EvExit 0 0] (EvDestroy 0)
           before_destroy R).
  vm_compute. reflexivity.
Defined.

(** ** One cleanup to the end *)




